(** * Verification of the PIC18 TMR0 example (Examples/C18/PIC18Extd/src/main.c)

    Shallow embedding of the program's globals, of the interrupt handler
    [InterruptHandlerHigh] and of the main loop [doloop], with the handler
    able to preempt [doloop] between any two of its statements. *)

From Stdlib Require Import ZArith List Bool Lia.
Import ListNotations.
Open Scope Z_scope.

(** ** Data model *)

(** [enum TimerState { Running, Stopped }] *)
Inductive TimerState := Running | Stopped.

(** The globals the two execution contexts touch: the TMR0 overflow bit of
    INTCON, the byte [Flags] (union TimerFlags; bit 0 is [Bit.Timeout]),
    the latch bits LATB0 (LED-A) and LATB7 (LED-B), [char buffer[16]]
    (bytes 0..255), the global [State] and the function-static [state]
    of [doloop]. *)
Record globals := mkGlobals {
  TMR0IF : bool;
  Flags : Z;
  LATB0 : bool;
  LATB7 : bool;
  buffer : list Z;
  State : TimerState;
  doloop_state : TimerState
}.

(** Reading [Flags.Bit.Timeout] (or [flg.Bit.Timeout]): bit 0 of the byte. *)
Definition Timeout (b : Z) : bool := Z.testbit b 0.

(** Writing the one-bit field [Timeout] of a byte. *)
Definition set_Timeout (b : Z) (v : bool) : Z :=
  if v then Z.lor b 1 else Z.land b 254.

(** [p[i] = v] on a byte array; out of range nothing is written. *)
Fixpoint store_at (l : list Z) (i : nat) (v : Z) : list Z :=
  match l, i with
  | [], _ => []
  | _ :: t, O => v :: t
  | x :: t, S i' => x :: store_at t i' v
  end.

(** A byte of a C string; past the end of the list, the terminating NUL. *)
Definition byte_at (l : list Z) (i : nat) : Z := nth i l 0.

(** The primitive writes of the program: each C assignment to a global is
    one of these. *)
Inductive write :=
| W_TMR0IF (b : bool)          (* INTCONbits.TMR0IF = b *)
| W_Timeout (b : bool)         (* Flags.Bit.Timeout = b *)
| W_FlagsByte (z : Z)          (* Flags.Byte = z *)
| W_LATB0 (b : bool)           (* LATBbits.LATB0 = b *)
| W_LATB7 (b : bool)           (* LATBbits.LATB7 = b *)
| W_buffer (i : nat) (v : Z)   (* buffer[i] = v *)
| W_State (s : TimerState)     (* State = s *)
| W_state (s : TimerState).    (* doloop's static state = s *)

Definition apply_write (g : globals) (w : write) : globals :=
  match w with
  | W_TMR0IF b => {| TMR0IF := b; Flags := Flags g; LATB0 := LATB0 g;
                     LATB7 := LATB7 g; buffer := buffer g; State := State g;
                     doloop_state := doloop_state g |}
  | W_Timeout b => {| TMR0IF := TMR0IF g; Flags := set_Timeout (Flags g) b;
                      LATB0 := LATB0 g; LATB7 := LATB7 g; buffer := buffer g;
                      State := State g; doloop_state := doloop_state g |}
  | W_FlagsByte z => {| TMR0IF := TMR0IF g; Flags := z; LATB0 := LATB0 g;
                        LATB7 := LATB7 g; buffer := buffer g; State := State g;
                        doloop_state := doloop_state g |}
  | W_LATB0 b => {| TMR0IF := TMR0IF g; Flags := Flags g; LATB0 := b;
                    LATB7 := LATB7 g; buffer := buffer g; State := State g;
                    doloop_state := doloop_state g |}
  | W_LATB7 b => {| TMR0IF := TMR0IF g; Flags := Flags g; LATB0 := LATB0 g;
                    LATB7 := b; buffer := buffer g; State := State g;
                    doloop_state := doloop_state g |}
  | W_buffer i v => {| TMR0IF := TMR0IF g; Flags := Flags g; LATB0 := LATB0 g;
                       LATB7 := LATB7 g; buffer := store_at (buffer g) i v;
                       State := State g; doloop_state := doloop_state g |}
  | W_State s => {| TMR0IF := TMR0IF g; Flags := Flags g; LATB0 := LATB0 g;
                    LATB7 := LATB7 g; buffer := buffer g; State := s;
                    doloop_state := doloop_state g |}
  | W_state s => {| TMR0IF := TMR0IF g; Flags := Flags g; LATB0 := LATB0 g;
                    LATB7 := LATB7 g; buffer := buffer g; State := State g;
                    doloop_state := s |}
  end.

Definition apply_writes (g : globals) (ws : list write) : globals :=
  fold_left apply_write ws g.

(** A straight-line sequence of assignments: each statement evaluates its
    right-hand side in the state left by the previous ones. The result is
    the final state and the writes, in program order. *)
Fixpoint exec_seq (ss : list (globals -> write)) (g : globals)
  : globals * list write :=
  match ss with
  | [] => (g, [])
  | s :: ss' =>
      let w := s g in
      let '(g', ws) := exec_seq ss' (apply_write g w) in
      (g', w :: ws)
  end.

(** ** The interrupt handler

<<
void InterruptHandlerHigh ()
{
  if (INTCONbits.TMR0IF)
    {
      INTCONbits.TMR0IF = 0;
      Flags.Bit.Timeout = 1;
      LATBbits.LATB0 = !LATBbits.LATB0;
    }
}
>> *)
Definition InterruptHandlerHigh_body : list (globals -> write) :=
  [ (fun _ => W_TMR0IF false);
    (fun _ => W_Timeout true);
    (fun g => W_LATB0 (negb (LATB0 g))) ].

Definition InterruptHandlerHigh (g : globals) : globals * list write :=
  if TMR0IF g then exec_seq InterruptHandlerHigh_body g else (g, []).

(** A timer overflow: the hardware asserts TMR0IF and, the interrupt being
    enabled (INTCON = 0x20, GIEH = 1), vectors to the handler. *)
Definition overflow (g : globals) : globals * list write :=
  let g1 := apply_write g (W_TMR0IF true) in
  InterruptHandlerHigh g1.

(** ** String routines of <string.h> used by [doloop] *)

(** [strcmp(s1, s2)]: bytes compared as unsigned char up to the first
    difference or the first NUL; [fuel] bounds the scan. *)
Fixpoint strcmp_from (fuel : nat) (s1 s2 : list Z) (i : nat) : Z :=
  match fuel with
  | O => 0
  | S fuel' =>
      let c1 := byte_at s1 i in
      let c2 := byte_at s2 i in
      if negb (c1 =? c2) then c1 - c2
      else if c1 =? 0 then 0
      else strcmp_from fuel' s1 s2 (S i)
  end.

Definition strcmp (s1 s2 : list Z) : Z :=
  strcmp_from (S (length s1)) s1 s2 0.

(** [strncpy(dst + off, src, n)] as the writes it performs on [dst]:
    [n] bytes, the bytes of [src] up to its NUL, then NUL padding. *)
Fixpoint strncpy_writes (off : nat) (src : list Z) (n : nat) : list write :=
  match n with
  | O => []
  | S n' =>
      match src with
      | c :: src' =>
          if c =? 0 then W_buffer off 0 :: strncpy_writes (S off) [] n'
          else W_buffer off c :: strncpy_writes (S off) src' n'
      | [] => W_buffer off 0 :: strncpy_writes (S off) [] n'
      end
  end.

(** The string literals "abc" and "def", with their NUL. *)
Definition lit_abc : list Z := [97; 98; 99; 0].
Definition lit_def : list Z := [100; 101; 102; 0].

(** ** The main loop

<<
void doloop(register char loop)
{
    register union TimerFlags flg;
    static enum TimerState state;

    while (loop)                                        L_top
    {
      flg = getFlags();                                 L_read
      if (flg.Bit.Timeout == 1)                         L_test
      {
        state = Running;                                L_run
        Flags.Bit.Timeout = 0;                          L_clear
        LATBbits.LATB7 = LATBbits.LATB0;                L_load, L_store
      }
      else
        state = Stopped;                                L_stop
      if (strcmp("abc", buffer) == 0)                   L_str
      {
        (void)strncpy(buffer+3, "def", 3);              L_cpy
      }
      State = state;                                    L_set
    }
}                                                       L_done
>>
    The assignment [LATB7 = LATB0] is a load of LATB0 followed by a store
    to LATB7, so the handler may run between the two. *)
Inductive loc :=
  L_top | L_read | L_test | L_run | L_clear | L_load | L_store
| L_stop | L_str | L_cpy | L_set | L_done.

(** The frame of [doloop]: its argument [loop], its register local [flg],
    the value of LATB0 loaded for the copy, and the point reached. *)
Record frame := mkFrame {
  loop : Z;
  flg : Z;
  tmp : bool;
  pc : loc
}.

Definition set_pc (f : frame) (l : loc) : frame :=
  mkFrame (loop f) (flg f) (tmp f) l.

Definition config : Type := (globals * frame)%type.

(** One statement of [doloop]: the new configuration and its writes. *)
Definition loop_step (c : config) : config * list write :=
  let '(g, f) := c in
  match pc f with
  | L_top => ((g, set_pc f (if loop f =? 0 then L_done else L_read)), [])
  | L_read => ((g, mkFrame (loop f) (Flags g) (tmp f) L_test), [])
  | L_test =>
      ((g, set_pc f (if Timeout (flg f) then L_run else L_stop)), [])
  | L_run =>
      let w := W_state Running in ((apply_write g w, set_pc f L_clear), [w])
  | L_clear =>
      let w := W_Timeout false in ((apply_write g w, set_pc f L_load), [w])
  | L_load => ((g, mkFrame (loop f) (flg f) (LATB0 g) L_store), [])
  | L_store =>
      let w := W_LATB7 (tmp f) in ((apply_write g w, set_pc f L_str), [w])
  | L_stop =>
      let w := W_state Stopped in ((apply_write g w, set_pc f L_str), [w])
  | L_str =>
      ((g, set_pc f (if strcmp lit_abc (buffer g) =? 0 then L_cpy else L_set)),
       [])
  | L_cpy =>
      let ws := strncpy_writes 3 lit_def 3 in
      ((apply_writes g ws, set_pc f L_set), ws)
  | L_set =>
      let w := W_State (doloop_state g) in
      ((apply_write g w, set_pc f L_top), [w])
  | L_done => ((g, f), [])
  end.

(** ** Interleaving of the two contexts

    A schedule says, step by step, whether the main loop executes its next
    statement or a timer overflow preempts it and the handler runs. *)
Inductive event := E_loop | E_overflow.

Inductive actor := Hardware | Handler | Loop.

Definition step (e : event) (c : config) : config * list (actor * write) :=
  let '(g, f) := c in
  match e with
  | E_loop =>
      let '(c', ws) := loop_step c in (c', map (pair Loop) ws)
  | E_overflow =>
      let '(g', ws) := overflow g in
      ((g', f),
       (Hardware, W_TMR0IF true) :: map (pair Handler) ws)
  end.

Fixpoint run (s : list event) (c : config) : config * list (actor * write) :=
  match s with
  | [] => (c, [])
  | e :: s' =>
      let '(c1, t1) := step e c in
      let '(c2, t2) := run s' c1 in
      (c2, t1 ++ t2)
  end.

Definition run_cfg (s : list event) (c : config) : config := fst (run s c).

(** [main]: [Flags.Byte = 0], INTCON = 0x20 (TMR0IF cleared), then
    [doloop(1)] entered at the loop test. *)
Definition main_init (g : globals) : globals * list write :=
  exec_seq [(fun _ => W_FlagsByte 0); (fun _ => W_TMR0IF false)] g.

(** Conversion of an argument to a parameter of type [char] (signed
    8-bit in MPLAB C18) or [int] (signed 16-bit): the value is taken
    modulo 2^8 (2^16) into the signed range. *)
Definition to_char (z : Z) : Z :=
  let m := z mod 256 in if m <? 128 then m else m - 256.


(** [doloop(arg)]: [arg] is converted to the [char] parameter [loop]. *)
Definition doloop_entry (g : globals) (arg : Z) : config :=
  (g, mkFrame (to_char arg) 0 false L_top).

Definition main_entry (g : globals) : config :=
  doloop_entry (fst (main_init g)) 1.

(** One uninterrupted iteration of the [while] body: statements of [doloop]
    from the loop test until control is back at the test (or has left the
    loop). The body has at most 10 statements. *)
Definition at_loop_test (l : loc) : bool :=
  match l with L_top | L_done => true | _ => false end.

Fixpoint loop_until_top (fuel : nat) (c : config) : config * list write :=
  match fuel with
  | O => (c, [])
  | S fuel' =>
      let '(c1, w1) := loop_step c in
      if at_loop_test (pc (snd c1)) then (c1, w1)
      else let '(c2, w2) := loop_until_top fuel' c1 in (c2, w1 ++ w2)
  end.

Definition iteration (c : config) : config * list write :=
  loop_until_top 12 c.

(** [doloop] run alone (no interrupt) for at most [fuel] statements:
    [Some g] when it returned with globals [g], [None] when it had not. *)
Definition is_done (l : loc) : bool :=
  match l with L_done => true | _ => false end.

Fixpoint doloop_fuel (fuel : nat) (c : config) : option globals :=
  if is_done (pc (snd c)) then Some (fst c)
  else
    match fuel with
    | O => None
    | S fuel' => doloop_fuel fuel' (fst (loop_step c))
    end.

Definition doloop (fuel : nat) (g : globals) (arg : Z) : option globals :=
  doloop_fuel fuel (doloop_entry g arg).

(** Observations the loop makes: the number of executed [L_test]
    statements that found [flg.Bit.Timeout] set. *)
Definition observes (e : event) (c : config) : bool :=
  match e, pc (snd c) with
  | E_loop, L_test => Timeout (flg (snd c))
  | _, _ => false
  end.

Fixpoint observations (s : list event) (c : config) : nat :=
  match s with
  | [] => O
  | e :: s' =>
      (if observes e c then 1 else 0) + observations s' (fst (step e c))
  end.

Fixpoint overflows (s : list event) : nat :=
  match s with
  | [] => O
  | E_overflow :: s' => S (overflows s')
  | E_loop :: s' => overflows s'
  end.

(** The value of LATB0 written by the most recent handler run of a trace. *)
Fixpoint last_LATB0 (t : list (actor * write)) : option bool :=
  match t with
  | [] => None
  | (a, w) :: t' =>
      match last_LATB0 t' with
      | Some b => Some b
      | None =>
          match a, w with
          | Handler, W_LATB0 b => Some b
          | _, _ => None
          end
      end
  end.

(** The bytes [strncpy(buffer+3, "def", 3)] leaves in a buffer. *)
Definition cpy_def (b : list Z) : list Z :=
  buffer (apply_writes (mkGlobals false 0 false false b Running Running)
                       (strncpy_writes 3 lit_def 3)).

(** Whether a step is the loop's [strncpy] statement. *)
Definition is_cpy_step (e : event) (c : config) : bool :=
  match e, pc (snd c) with E_loop, L_cpy => true | _, _ => false end.

(** The number of steps of a schedule that change the buffer. *)
Fixpoint buffer_changes (s : list event) (c : config) : nat :=
  match s with
  | [] => O
  | e :: s' =>
      let c' := fst (step e c) in
      (if list_eq_dec Z.eq_dec (buffer (fst c')) (buffer (fst c)) then 0 else 1)
      + buffer_changes s' c'
  end.

(** Two global states that differ at most in [State]. *)
Definition eq_but_State (g1 g2 : globals) : Prop :=
  TMR0IF g1 = TMR0IF g2 /\ Flags g1 = Flags g2 /\ LATB0 g1 = LATB0 g2 /\
  LATB7 g1 = LATB7 g2 /\ buffer g1 = buffer g2 /\
  doloop_state g1 = doloop_state g2.

(** [doloop(1)] entered at its loop test. *)
Definition f_entry : frame := mkFrame 1 0 false L_top.

Definition g_irq : globals :=
  mkGlobals true 0 false false (repeat 0 16) Running Running.

(** With [o] the LATB0 value written by the most recent handler run, if
    any: before any handler run the flag and the loop's copy of it are
    clear; after one, LATB0 holds the value that run wrote. *)
Definition led_inv (o : option bool) (c : config) : Prop :=
  match o with
  | None => Timeout (Flags (fst c)) = false /\ Timeout (flg (snd c)) = false
  | Some b => LATB0 (fst c) = b
  end.

Definition latest (t : list (actor * write)) (o : option bool) : option bool :=
  match last_LATB0 t with Some b => Some b | None => o end.

(** The writes a statement of [doloop] may make. *)
Definition loop_may_write (w : write) : Prop :=
  match w with
  | W_Timeout true | W_FlagsByte _ | W_TMR0IF _ | W_LATB0 _ => False
  | _ => True
  end.

(** Writes to the Timeout Flag by the right context, and none of the
    whole [Flags] byte. *)
Definition Timeout_writer_ok (aw : actor * write) : Prop :=
  match aw with
  | (a, W_Timeout true) => a = Handler
  | (a, W_Timeout false) => a = Loop
  | (_, W_FlagsByte _) => False
  | _ => True
  end.

(** The statements between the test and the copy run only when the loop's
    copy of the flag had [Timeout] set. *)
Definition frame_ok (f : frame) : Prop :=
  match pc f with
  | L_run | L_clear | L_load | L_store => Timeout (flg f) = true
  | _ => True
  end.

(** A buffer holding the C string "abc". *)
Definition buf_abc : list Z := [97; 98; 99] ++ repeat 0 13.

(** Between the loop's test (having read the flag set) and its clear, the
    flag is still set: only the loop clears it. *)
Definition flag_inv (c : config) : Prop :=
  match pc (snd c) with
  | L_run | L_clear => Timeout (Flags (fst c)) = true
  | L_test => Timeout (flg (snd c)) = true -> Timeout (Flags (fst c)) = true
  | _ => True
  end.

(** With the flag clear (no update pending), LED-B mirrors LED-A outside
    the copy window, and inside it the loaded value is LED-A's. *)
Definition mirror_inv (c : config) : Prop :=
  Timeout (Flags (fst c)) = false ->
  match pc (snd c) with
  | L_run | L_clear | L_load => True
  | L_store => tmp (snd c) = LATB0 (fst c)
  | _ => LATB7 (fst c) = LATB0 (fst c)
  end.

(** A flag set that no iteration has observed yet: set, and the loop not
    between its test and its clear. *)
Definition pending (c : config) : nat :=
  match pc (snd c) with
  | L_run | L_clear => O
  | _ => if Timeout (Flags (fst c)) then 1 else O
  end.

(** The state of a run from [main] in which no timer overflow occurred:
    [Flags.Byte] still 0, the loop's copy of the flag clear, and the loop
    not inside the copy branch. *)
Definition quiet (c : config) : Prop :=
  Flags (fst c) = 0 /\ Timeout (flg (snd c)) = false /\
  match pc (snd c) with
  | L_run | L_clear | L_load | L_store => False
  | _ => True
  end.

(** The writes [doloop] makes while the flag stays clear: [state],
    [State] and the bytes of [buffer]. *)
Definition quiet_write (w : write) : Prop :=
  match w with
  | W_state _ | W_State _ | W_buffer _ _ => True
  | _ => False
  end.








(** ** Sanity checks on concrete inputs *)

Definition zero_buf : list Z := repeat 0 16.

Definition g_reset : globals :=
  mkGlobals false 0 false false zero_buf Running Running.

Example strcmp_abc_eq : strcmp lit_abc (97 :: 98 :: 99 :: repeat 0 13) = 0.
Proof. reflexivity. Qed.

Example strcmp_abc_zero : strcmp lit_abc zero_buf = 97.
Proof. reflexivity. Qed.

Example strncpy_def : strncpy_writes 3 lit_def 3 =
  [W_buffer 3 100; W_buffer 4 101; W_buffer 5 102].
Proof. reflexivity. Qed.

(** The scenario of the spec: two overflows, each followed by an iteration. *)
Example scenario :
  let c := run_cfg ([E_overflow] ++ repeat E_loop 9 ++ [E_overflow] ++
                    repeat E_loop 9) (main_entry g_reset) in
  LATB0 (fst c) = false /\ LATB7 (fst c) = false /\
  Timeout (Flags (fst c)) = false /\ pc (snd c) = L_top.
Proof. vm_compute. repeat split. Qed.

(** ** Shared lemmas *)

Lemma Timeout_set_true : forall b, Timeout (set_Timeout b true) = true.
Proof.
  intros b. unfold Timeout, set_Timeout. rewrite Z.lor_spec. now rewrite orb_true_r.
Qed.

Lemma Timeout_set_false : forall b, Timeout (set_Timeout b false) = false.
Proof.
  intros b. unfold Timeout, set_Timeout. rewrite Z.land_spec. now rewrite andb_false_r.
Qed.

Lemma Timeout_land254 : forall b, Timeout (Z.land b 254) = false.
Proof. exact Timeout_set_false. Qed.

Lemma to_char_small : forall z, -128 <= z <= 127 -> to_char z = z.
Proof.
  intros z Hz. unfold to_char.
  destruct (Z.ltb_spec z 0).
  - rewrite <- (Z.mod_add z 1 256) by lia. rewrite Z.mod_small by lia.
    destruct (Z.ltb_spec (z + 1 * 256) 128); lia.
  - rewrite Z.mod_small by lia. destruct (Z.ltb_spec z 128); lia.
Qed.


(** Case analysis on the statement [doloop] is at, and on the tests the
    statement performs. *)
Ltac loop_cases f :=
  cbn -[strcmp Timeout];
  destruct (pc f) eqn:?; cbn -[strcmp Timeout];
  repeat match goal with
         | |- context [if ?b then _ else _] => destruct b eqn:?
         end; cbn -[strcmp Timeout].

Lemma loop_step_LATB0 : forall c, LATB0 (fst (fst (loop_step c))) = LATB0 (fst c).
Proof. intros [g f]. cbn. loop_cases f; reflexivity. Qed.

Lemma step_loop_cfg : forall c, fst (step E_loop c) = fst (loop_step c).
Proof. intros [g f]. unfold step. now destruct (loop_step (g, f)). Qed.

Lemma step_overflow_cfg : forall g f,
  fst (step E_overflow (g, f)) = (fst (overflow g), f).
Proof. intros g f. unfold step. now destruct (overflow g). Qed.

Lemma overflow_eq : forall g,
  overflow g =
  ({| TMR0IF := false; Flags := set_Timeout (Flags g) true;
      LATB0 := negb (LATB0 g); LATB7 := LATB7 g; buffer := buffer g;
      State := State g; doloop_state := doloop_state g |},
   [W_TMR0IF false; W_Timeout true; W_LATB0 (negb (LATB0 g))]).
Proof. intros g. reflexivity. Qed.

Lemma loop_until_top_S : forall fuel c,
  loop_until_top (S fuel) c =
  let '(c1, w1) := loop_step c in
  if at_loop_test (pc (snd c1)) then (c1, w1)
  else let '(c2, w2) := loop_until_top fuel c1 in (c2, w1 ++ w2).
Proof. reflexivity. Qed.

Lemma run_cons : forall e s c,
  run_cfg (e :: s) c = run_cfg s (fst (step e c)).
Proof.
  intros e s c. unfold run_cfg. cbn [run].
  destruct (step e c) as [c1 t1]. cbn. destruct (run s c1) as [c2 t2]. reflexivity.
Qed.

(** ** Claims *)

(** C2. Interrupt handler contract: when TMR0IF is asserted, the handler
    performs exactly three writes, in this order: it clears TMR0IF, sets the
    Timeout Flag, and inverts LATB0 (LED-A); every other global keeps its
    value and the handler returns nothing. *)
Theorem InterruptHandlerHigh_contract : forall g,
  TMR0IF g = true ->
  InterruptHandlerHigh g =
  ({| TMR0IF := false; Flags := set_Timeout (Flags g) true;
      LATB0 := negb (LATB0 g); LATB7 := LATB7 g; buffer := buffer g;
      State := State g; doloop_state := doloop_state g |},
   [W_TMR0IF false; W_Timeout true; W_LATB0 (negb (LATB0 g))])
  /\ Timeout (set_Timeout (Flags g) true) = true.
Proof.
  intros g H. split.
  - unfold InterruptHandlerHigh. rewrite H. reflexivity.
  - apply Timeout_set_true.
Qed.

Lemma InterruptHandlerHigh_contract_witness :
  TMR0IF g_irq = true /\
  InterruptHandlerHigh g_irq =
  ({| TMR0IF := false; Flags := set_Timeout (Flags g_irq) true;
      LATB0 := negb (LATB0 g_irq); LATB7 := LATB7 g_irq;
      buffer := buffer g_irq; State := State g_irq;
      doloop_state := doloop_state g_irq |},
   [W_TMR0IF false; W_Timeout true; W_LATB0 (negb (LATB0 g_irq))]).
Proof.
  split; [reflexivity|].
  apply (proj1 (InterruptHandlerHigh_contract g_irq eq_refl)).
Defined.

Lemma odd_mod2 : forall n, Nat.odd n = Nat.eqb (n mod 2) 1.
Proof.
  intros n. destruct (Nat.Even_or_Odd n) as [[k ->]|[k ->]].
  - rewrite Nat.odd_mul, (Nat.mul_comm 2 k), Nat.Div0.mod_mul. reflexivity.
  - rewrite Nat.odd_add, Nat.odd_mul, (Nat.mul_comm 2 k), Nat.add_comm,
      Nat.Div0.mod_add. reflexivity.
Qed.

Lemma run_LATB0 : forall s c,
  LATB0 (fst (run_cfg s c)) = xorb (LATB0 (fst c)) (Nat.odd (overflows s)).
Proof.
  induction s as [|e s IH]; intros c.
  - cbn. now rewrite xorb_false_r.
  - rewrite run_cons, IH. destruct e.
    + rewrite step_loop_cfg, loop_step_LATB0. reflexivity.
    + destruct c as [g f]. rewrite step_overflow_cfg, overflow_eq. cbn -[Nat.odd].
      rewrite Nat.odd_succ, <- Nat.negb_odd.
      destruct (LATB0 g), (Nat.odd (overflows s)); reflexivity.
Qed.

(** C4. Toggle property: after N timer-overflow events, LED-A's state is its
    initial state XORed with (N mod 2); main-loop statements interleaved
    with the events do not change this. *)
Theorem toggle_property : forall N c,
  LATB0 (fst (run_cfg (repeat E_overflow N) c)) =
  xorb (LATB0 (fst c)) (Nat.eqb (N mod 2) 1)
  /\ (forall s, overflows s = N ->
      LATB0 (fst (run_cfg s c)) = xorb (LATB0 (fst c)) (Nat.eqb (N mod 2) 1)).
Proof.
  pose proof odd_mod2 as Hodd.
  intros N c. split.
  - rewrite run_LATB0, Hodd. f_equal. f_equal. f_equal.
    induction N as [|N IH]; cbn; congruence.
  - intros s Hs. rewrite run_LATB0, Hodd, Hs. reflexivity.
Qed.

Lemma toggle_property_witness :
  overflows [E_overflow; E_loop; E_overflow; E_overflow] = 3%nat /\
  LATB0 (fst (run_cfg [E_overflow; E_loop; E_overflow; E_overflow]
                      (main_entry g_reset))) =
  xorb (LATB0 (fst (main_entry g_reset))) (Nat.eqb (3 mod 2) 1)%nat.
Proof.
  split; [reflexivity|].
  apply (proj2 (toggle_property 3%nat (main_entry g_reset))). reflexivity.
Defined.

(** Evaluation of one uninterrupted iteration entered at the loop test with
    a nonzero [loop]: the two tests of the body are split on. *)
Ltac run_iteration :=
  let g := fresh "g" in let f := fresh "f" in
  let Hpc := fresh "Hpc" in let Hl := fresh "Hl" in
  intros g f Hpc Hl;
  destruct f as [l fl tp p]; cbn in Hpc, Hl; subst p;
  pose proof (proj2 (Z.eqb_neq l 0) Hl) as Hl0;
  destruct (Timeout (Flags g)) eqn:Ht;
  destruct (strcmp lit_abc (buffer g) =? 0) eqn:Hs;
  unfold iteration;
  repeat (rewrite loop_until_top_S;
          cbn -[loop_until_top Z.eqb Timeout strcmp strncpy_writes];
          rewrite ?Hl0, ?Ht, ?Hs;
          cbn -[loop_until_top Z.eqb Timeout strcmp strncpy_writes]);
  cbn -[Z.eqb Timeout strcmp].

Lemma iteration_observed : forall g f,
  pc f = L_top -> loop f <> 0 ->
  let '((g', f'), ws) := iteration (g, f) in
  Timeout (flg f') = true ->
  In (W_Timeout false) ws /\ Timeout (Flags g') = false /\ LATB7 g' = LATB0 g.
Proof.
  run_iteration; intros Hobs; try congruence;
    repeat split; try (cbn; tauto); apply Timeout_set_false.
Qed.

Lemma iteration_frame : forall g f,
  pc f = L_top -> loop f <> 0 ->
  let '((g', f'), ws) := iteration (g, f) in
  flg f' = Flags g /\ pc f' = L_top /\ loop f' = loop f.
Proof. run_iteration; repeat split. Qed.

(** C3 (as amended). Mirror property of an iteration the handler does not
    preempt: when it observes the Timeout Flag set, it clears the flag and
    leaves LED-B equal to LED-A's state at the moment of observation. *)
Theorem mirror_uninterrupted : forall g f,
  pc f = L_top -> loop f <> 0 ->
  let '((g', f'), ws) := iteration (g, f) in
  Timeout (flg f') = true ->
  In (W_Timeout false) ws /\ Timeout (Flags g') = false /\ LATB7 g' = LATB0 g.
Proof. exact iteration_observed. Qed.

Lemma mirror_uninterrupted_witness :
  pc (snd (main_entry g_irq)) = L_top /\ loop (snd (main_entry g_irq)) <> 0 /\
  let '((g', f'), ws) := iteration (mkGlobals false 1 true false zero_buf
                                      Running Running,
                                    snd (main_entry g_irq)) in
  Timeout (flg f') = true ->
  In (W_Timeout false) ws /\ Timeout (Flags g') = false /\ LATB7 g' = true.
Proof.
  split; [reflexivity|]. split; [discriminate|].
  exact (mirror_uninterrupted (mkGlobals false 1 true false zero_buf
                                 Running Running)
           (snd (main_entry g_irq)) eq_refl ltac:(discriminate)).
Defined.

(** C3 counterexample: LED-A at 0 and the flag set by a first overflow; the
    loop reads the flag (observation, LED-A = 1), a second overflow preempts
    it before its copy, and the iteration ends with LED-B = 0, not the
    LED-A value it observed. *)
Lemma mirror_preempted_counterexample :
  let c1 := run_cfg [E_overflow; E_loop; E_loop] (main_entry g_reset) in
  let c2 := run_cfg (E_overflow :: repeat E_loop 7) c1 in
  pc (snd c1) = L_test /\ Timeout (flg (snd c1)) = true /\
  LATB0 (fst c1) = true /\
  pc (snd c2) = L_top /\ observations (repeat E_loop 7) (fst (step E_overflow c1)) = 1%nat /\
  LATB7 (fst c2) = false /\ LATB7 (fst c2) <> LATB0 (fst c1).
Proof. vm_compute. repeat split; discriminate. Qed.

(** C6. Idle property: an iteration that observes the Timeout Flag clear
    leaves both LEDs, the Timeout Flag (the whole [Flags] byte) and TMR0IF
    unchanged, and writes none of them. *)
Theorem idle_iteration : forall g f,
  pc f = L_top -> loop f <> 0 ->
  let '((g', f'), ws) := iteration (g, f) in
  Timeout (flg f') = false ->
  LATB7 g' = LATB7 g /\ LATB0 g' = LATB0 g /\ Flags g' = Flags g /\
  TMR0IF g' = TMR0IF g /\
  (forall w, In w ws ->
   match w with
   | W_LATB0 _ | W_LATB7 _ | W_Timeout _ | W_FlagsByte _ | W_TMR0IF _ => False
   | _ => True
   end).
Proof.
  run_iteration; intros Hobs; try congruence;
    repeat split; intros w Hw; cbn in Hw; intuition (subst; exact I).
Qed.

Lemma idle_iteration_witness :
  pc (snd (main_entry g_reset)) = L_top /\ loop (snd (main_entry g_reset)) <> 0 /\
  let '((g', f'), ws) := iteration (main_entry g_reset) in
  Timeout (flg f') = false ->
  LATB7 g' = LATB7 g_reset /\ LATB0 g' = LATB0 g_reset /\
  Flags g' = Flags g_reset /\ TMR0IF g' = TMR0IF g_reset /\
  (forall w, In w ws ->
   match w with
   | W_LATB0 _ | W_LATB7 _ | W_Timeout _ | W_FlagsByte _ | W_TMR0IF _ => False
   | _ => True
   end).
Proof.
  split; [reflexivity|]. split; [discriminate|].
  exact (idle_iteration g_reset (snd (main_entry g_reset)) eq_refl
           ltac:(discriminate)).
Defined.

(** ** Invariant: LED-A and the flag are produced together by the handler *)

Lemma last_LATB0_app : forall t1 t2,
  last_LATB0 (t1 ++ t2) = latest t2 (last_LATB0 t1).
Proof.
  induction t1 as [|[a w] t1 IH]; intros t2; cbn.
  - unfold latest. now destruct (last_LATB0 t2).
  - rewrite IH. unfold latest. destruct (last_LATB0 t2); [reflexivity|].
    reflexivity.
Qed.

Lemma last_LATB0_loop : forall ws, last_LATB0 (map (pair Loop) ws) = None.
Proof. induction ws as [|w ws IH]; cbn; [reflexivity|]. now rewrite IH. Qed.

Lemma step_led_inv : forall e c o,
  led_inv o c -> led_inv (latest (snd (step e c)) o) (fst (step e c)).
Proof.
  intros e [g f] o H. destruct e.
  - unfold step. destruct (loop_step (g, f)) as [c' ws] eqn:E. cbn [fst snd].
    unfold latest. rewrite last_LATB0_loop.
    destruct o as [b|]; cbn [led_inv fst snd] in *.
    + pose proof (loop_step_LATB0 (g, f)) as HL. rewrite E in HL. cbn in HL.
      congruence.
    + destruct H as [H1 H2]. destruct f as [l fl tp p]. cbn [flg] in H2.
      revert E. destruct p; cbn -[strcmp Timeout Z.eqb]; intros E;
        inversion E; subst; cbn -[Timeout]; split; auto using Timeout_set_false, Timeout_land254.
  - unfold step. rewrite overflow_eq. cbn. reflexivity.
Qed.

Lemma run_led_inv : forall s c o,
  led_inv o c -> led_inv (latest (snd (run s c)) o) (fst (run s c)).
Proof.
  induction s as [|e s IH]; intros c o H; cbn [run].
  - exact H.
  - pose proof (step_led_inv e c o H) as H1.
    destruct (step e c) as [c1 t1]. cbn [fst snd] in H1.
    pose proof (IH c1 _ H1) as H2.
    destruct (run s c1) as [c2 t2]. cbn [fst snd] in *.
    unfold latest in *. rewrite last_LATB0_app. unfold latest.
    destruct (last_LATB0 t2); [exact H2|]. exact H2.
Qed.

Lemma main_entry_led_inv : forall g, led_inv None (main_entry g).
Proof. intros g. split; reflexivity. Qed.

(** C5. Handler outruns loop: two overflows while the loop stands at its
    test leave LED-A at its value before them (both toggles applied); the
    next iteration observes the flag set, clears it and copies that latest
    LED-A value to LED-B. And in every execution from [main], whenever the
    loop observes the flag set, LED-A holds the value written by the most
    recent handler run. *)
Theorem handler_outruns_loop :
  (forall g f, pc f = L_top -> loop f <> 0 ->
   let c2 := run_cfg [E_overflow; E_overflow] (g, f) in
   let '((g3, f3), ws) := iteration c2 in
   LATB0 (fst c2) = LATB0 g /\ snd c2 = f /\ Timeout (flg f3) = true /\
   In (W_Timeout false) ws /\ Timeout (Flags g3) = false /\
   LATB7 g3 = LATB0 (fst c2) /\ pc f3 = L_top)
  /\
  (forall g s e,
   observes e (run_cfg s (main_entry g)) = true ->
   last_LATB0 (snd (run s (main_entry g))) =
   Some (LATB0 (fst (run_cfg s (main_entry g))))).
Proof.
  split.
  - intros g f Hpc Hl.
    set (g2 := {| TMR0IF := false;
                  Flags := set_Timeout (set_Timeout (Flags g) true) true;
                  LATB0 := negb (negb (LATB0 g)); LATB7 := LATB7 g;
                  buffer := buffer g; State := State g;
                  doloop_state := doloop_state g |}).
    assert (Hc2 : run_cfg [E_overflow; E_overflow] (g, f) = (g2, f))
      by reflexivity.
    cbv zeta. rewrite Hc2.
    pose proof (iteration_observed g2 f Hpc Hl) as Hobs.
    pose proof (iteration_frame g2 f Hpc Hl) as Hfr.
    destruct (iteration (g2, f)) as [[g3 f3] ws].
    destruct Hfr as (Hflg & Hpc3 & _).
    assert (Ht : Timeout (flg f3) = true)
      by (rewrite Hflg; apply Timeout_set_true).
    destruct (Hobs Ht) as (Hin & Hclr & H7).
    cbn [fst snd]. repeat split; auto.
    cbn. now rewrite negb_involutive.
  - intros g s e Hobs.
    pose proof (run_led_inv s (main_entry g) None (main_entry_led_inv g)) as H.
    unfold run_cfg in *. destruct (run s (main_entry g)) as [[g' f'] t].
    cbn [fst snd] in *. unfold latest in H.
    destruct (last_LATB0 t) as [b|].
    + cbn in H. now rewrite H.
    + destruct H as [_ H]. destruct e; cbn -[Timeout] in Hobs; [|discriminate].
      cbn [snd] in H. destruct (pc f'); congruence.
Qed.

Lemma handler_outruns_loop_witness :
  pc f_entry = L_top /\ loop f_entry <> 0 /\
  let c2 := run_cfg [E_overflow; E_overflow] (g_reset, f_entry) in
  let '((g3, f3), ws) := iteration c2 in
  LATB0 (fst c2) = LATB0 g_reset /\ snd c2 = f_entry /\
  Timeout (flg f3) = true /\
  In (W_Timeout false) ws /\ Timeout (Flags g3) = false /\
  LATB7 g3 = LATB0 (fst c2) /\ pc f3 = L_top.
Proof.
  split; [reflexivity|]. split; [discriminate|].
  exact (proj1 handler_outruns_loop g_reset f_entry eq_refl ltac:(discriminate)).
Defined.

(** ** [State] is never read *)

Lemma step_eq_but_State : forall e g1 g2 f,
  eq_but_State g1 g2 ->
  snd (step e (g1, f)) = snd (step e (g2, f)) /\
  snd (fst (step e (g1, f))) = snd (fst (step e (g2, f))) /\
  eq_but_State (fst (fst (step e (g1, f)))) (fst (fst (step e (g2, f)))).
Proof.
  intros e [a1 b1 c1 d1 e1 s1 h1] [a2 b2 c2 d2 e2 s2 h2] f H.
  destruct H as (Ha & Hb & Hc & Hd & He & Hh); cbn in *; subst.
  unfold eq_but_State.
  destruct e; cbn -[strcmp Timeout Z.eqb];
    [loop_cases f|]; repeat split.
Qed.

Lemma run_eq_but_State : forall s g1 g2 f,
  eq_but_State g1 g2 ->
  snd (run s (g1, f)) = snd (run s (g2, f)) /\
  snd (run_cfg s (g1, f)) = snd (run_cfg s (g2, f)) /\
  eq_but_State (fst (run_cfg s (g1, f))) (fst (run_cfg s (g2, f))).
Proof.
  induction s as [|e s IH]; intros g1 g2 f H.
  - split; [|split]; [reflexivity|reflexivity|exact H].
  - destruct (step_eq_but_State e g1 g2 f H) as (Ht & Hf & Hg).
    unfold run_cfg. cbn [run].
    destruct (step e (g1, f)) as [[g1' f1'] t1].
    destruct (step e (g2, f)) as [[g2' f2'] t2].
    cbn [fst snd] in *. subst.
    destruct (IH g1' g2' f2' Hg) as (Ht' & Hf' & Hg').
    unfold run_cfg in *.
    destruct (run s (g1', f2')) as [c1 u1].
    destruct (run s (g2', f2')) as [c2 u2].
    cbn [fst snd] in *. subst. split; [|split]; auto.
Qed.

(** C9. [State] is dead state: an iteration ends with [State] equal to
    [Running] when it observed the Timeout Flag set and [Stopped] otherwise;
    and no statement reads it: two runs under any schedule from states that
    differ only in [State] make the same writes and agree on the LEDs, the
    Timeout Flag, TMR0IF, the buffer and the loop's frame. *)
Theorem State_dead :
  (forall g f, pc f = L_top -> loop f <> 0 ->
   let '((g', f'), _) := iteration (g, f) in
   State g' = (if Timeout (flg f') then Running else Stopped))
  /\
  (forall s g1 g2 f, eq_but_State g1 g2 ->
   snd (run s (g1, f)) = snd (run s (g2, f)) /\
   snd (run_cfg s (g1, f)) = snd (run_cfg s (g2, f)) /\
   eq_but_State (fst (run_cfg s (g1, f))) (fst (run_cfg s (g2, f)))).
Proof.
  split.
  - run_iteration; rewrite ?Ht; reflexivity.
  - exact run_eq_but_State.
Qed.

Lemma State_dead_witness :
  (pc f_entry = L_top /\ loop f_entry <> 0 /\
   let '((g', f'), _) := iteration (g_irq, f_entry) in
   State g' = (if Timeout (flg f') then Running else Stopped))
  /\
  (eq_but_State g_reset (mkGlobals false 0 false false zero_buf Stopped Running) /\
   snd (run [E_overflow; E_loop] (g_reset, f_entry)) =
   snd (run [E_overflow; E_loop]
          (mkGlobals false 0 false false zero_buf Stopped Running, f_entry))).
Proof.
  split.
  - split; [reflexivity|]. split; [discriminate|].
    exact (proj1 State_dead g_irq f_entry eq_refl ltac:(discriminate)).
  - assert (H : eq_but_State g_reset
                  (mkGlobals false 0 false false zero_buf Stopped Running))
      by (repeat split).
    split; [exact H|].
    exact (proj1 (proj2 State_dead [E_overflow; E_loop] _ _ f_entry H)).
Defined.

(** ** Termination of [doloop] *)

Lemma loop_step_keeps_running : forall c,
  loop (snd c) <> 0 -> pc (snd c) <> L_done ->
  loop (snd (fst (loop_step c))) = loop (snd c) /\
  pc (snd (fst (loop_step c))) <> L_done.
Proof.
  intros [g [l fl tp p]] Hl Hp; cbn [snd loop pc] in Hl, Hp |- *.
  destruct p; cbn -[strcmp Timeout Z.eqb];
    repeat match goal with
           | |- context [if ?b then _ else _] => destruct b eqn:?
           end; cbn; split; try reflexivity; try discriminate.
  - match goal with H : (l =? 0) = true |- _ => apply Z.eqb_eq in H end.
    contradiction.
  - contradiction.
Qed.

Lemma step_keeps_running : forall e c,
  loop (snd c) <> 0 -> pc (snd c) <> L_done ->
  loop (snd (fst (step e c))) = loop (snd c) /\
  pc (snd (fst (step e c))) <> L_done.
Proof.
  intros e [g f] Hl Hp. destruct e.
  - rewrite step_loop_cfg. now apply loop_step_keeps_running.
  - rewrite step_overflow_cfg. cbn. now split.
Qed.

Lemma doloop_fuel_running : forall fuel c,
  loop (snd c) <> 0 -> pc (snd c) <> L_done -> doloop_fuel fuel c = None.
Proof.
  induction fuel as [|fuel IH]; intros c Hl Hp; cbn [doloop_fuel];
    (replace (is_done (pc (snd c))) with false
       by (destruct (pc (snd c)); cbn; congruence)); [reflexivity|].
  destruct (loop_step_keeps_running c Hl Hp) as [Hl' Hp'].
  apply IH; [congruence|exact Hp'].
Qed.

Lemma run_keeps_running : forall s c,
  loop (snd c) <> 0 -> pc (snd c) <> L_done ->
  pc (snd (run_cfg s c)) <> L_done.
Proof.
  induction s as [|e s IH]; intros c Hl Hp; [exact Hp|].
  rewrite run_cons. destruct (step_keeps_running e c Hl Hp) as [Hl' Hp'].
  apply IH; [congruence|exact Hp'].
Qed.

(** C7 (as amended). [doloop]'s parameter [loop] is a [char]: the
    argument is converted to signed 8-bit on entry. When the converted
    value is 0 (argument 0, or 256, ...) [doloop] returns after its first
    loop test with no iteration and no global changed; with any other
    argument (main passes 1) it never returns: [loop] is never modified,
    so whatever the schedule of interrupts, control never leaves the loop.
    For an argument in the range of [char], the converted value is the
    argument itself. *)
Theorem doloop_termination : forall g arg,
  (to_char arg = 0 ->
   doloop 1 g arg = Some g /\ loop_step (doloop_entry g arg) =
   ((g, mkFrame 0 0 false L_done), []))
  /\
  (to_char arg <> 0 ->
   (forall fuel, doloop fuel g arg = None) /\
   (forall s, pc (snd (run_cfg s (doloop_entry g arg))) <> L_done))
  /\
  (-128 <= arg <= 127 -> to_char arg = arg).
Proof.
  intros g arg. split; [|split].
  - intros H. unfold doloop, doloop_entry. rewrite H. split; reflexivity.
  - intros Harg. split.
    + intros fuel. apply doloop_fuel_running; cbn; [exact Harg|discriminate].
    + intros s. apply run_keeps_running; cbn; [exact Harg|discriminate].
  - apply to_char_small.
Qed.

Lemma doloop_termination_witness :
  to_char 0 = 0 /\ doloop 1 g_reset 0 = Some g_reset /\
  to_char 1 <> 0 /\ doloop 1000 g_reset 1 = None /\
  pc (snd (run_cfg [E_loop; E_overflow; E_loop] (doloop_entry g_reset 1)))
  <> L_done /\
  (-128 <= -5 <= 127 /\ to_char (-5) = -5).
Proof.
  split; [reflexivity|].
  split; [apply (proj1 (proj1 (doloop_termination g_reset 0) eq_refl))|].
  split; [discriminate|].
  split; [apply (proj1 (proj1 (proj2 (doloop_termination g_reset 1))
                                  ltac:(discriminate)))|].
  split; [apply (proj2 (proj1 (proj2 (doloop_termination g_reset 1))
                                  ltac:(discriminate)))|].
  split; [lia|].
  apply (proj2 (proj2 (doloop_termination g_reset (-5)))). lia.
Defined.

(** C7 counterexample: [doloop(256)] is called with a nonzero argument,
    which converts to the [char] 0; the call returns at its first loop
    test. *)
Lemma doloop_256_counterexample :
  256 <> 0 /\ to_char 256 = 0 /\ doloop 1 g_reset 256 = Some g_reset.
Proof. vm_compute. split; [discriminate|]. split; reflexivity. Qed.

(** ** Who writes the Timeout Flag *)

Lemma loop_step_writes : forall c w,
  In w (snd (loop_step c)) -> loop_may_write w.
Proof.
  intros [g f] w Hw. revert Hw. cbn. loop_cases f; intros Hw;
    repeat (destruct Hw as [<-|Hw]; [exact I|]); contradiction.
Qed.

Lemma step_writers : forall e c aw,
  In aw (snd (step e c)) -> Timeout_writer_ok aw.
Proof.
  intros e [g f] aw Hin. destruct e.
  - unfold step in Hin. pose proof (loop_step_writes (g, f)) as Hl.
    destruct (loop_step (g, f)) as [c' ws]. cbn [snd] in *.
    apply in_map_iff in Hin. destruct Hin as [w [<- Hw]].
    specialize (Hl w Hw). destruct w as [| [|] | | | | | |]; cbn in *;
      tauto.
  - unfold step in Hin. rewrite overflow_eq in Hin. cbn in Hin.
    repeat (destruct Hin as [<-|Hin]; [cbn; auto|]); contradiction.
Qed.

Lemma run_writers : forall s c aw,
  In aw (snd (run s c)) -> Timeout_writer_ok aw.
Proof.
  induction s as [|e s IH]; intros c aw Hin; cbn [run] in Hin; [contradiction|].
  pose proof (step_writers e c) as Hs.
  destruct (step e c) as [c1 t1]. pose proof (IH c1) as Hr.
  destruct (run s c1) as [c2 t2]. cbn [snd] in *.
  apply in_app_or in Hin. destruct Hin; auto.
Qed.

(** C8. Write discipline of the Timeout Flag: after [main]'s
    initialization, in every interleaving, each write setting the flag is
    made by the handler, each write clearing it by the main loop, and
    nothing else writes the [Flags] byte; correspondingly a loop statement
    never raises the flag and a handler run never lowers it. *)
Theorem Timeout_write_discipline :
  (forall g s a b,
   In (a, W_Timeout b) (snd (run s (main_entry g))) ->
   (b = true -> a = Handler) /\ (b = false -> a = Loop))
  /\ (forall g s a z, ~ In (a, W_FlagsByte z) (snd (run s (main_entry g))))
  /\ (forall c, Timeout (Flags (fst c)) = false ->
      Timeout (Flags (fst (fst (step E_loop c)))) = false)
  /\ (forall c, Timeout (Flags (fst (fst (step E_overflow c)))) = true).
Proof.
  split; [|split; [|split]].
  - intros g s a b Hin. apply run_writers in Hin. destruct b; cbn in Hin;
      split; congruence.
  - intros g s a z Hin. apply run_writers in Hin. exact Hin.
  - intros [g f] Hf. rewrite step_loop_cfg. revert Hf. cbn [fst].
    cbn. loop_cases f; intros Hf; auto using Timeout_land254.
  - intros [g f]. rewrite step_overflow_cfg, overflow_eq. cbn [fst].
    apply Timeout_set_true.
Qed.

Lemma Timeout_write_discipline_witness :
  In (Handler, W_Timeout true) (snd (run [E_overflow; E_loop] (main_entry g_reset))) /\
  Handler = Handler /\
  Timeout (Flags (fst (main_entry g_reset))) = false /\
  Timeout (Flags (fst (fst (step E_loop (main_entry g_reset))))) = false.
Proof.
  split; [vm_compute; tauto|].
  split; [exact (proj1 (proj1 Timeout_write_discipline g_reset
                   [E_overflow; E_loop] Handler true ltac:(vm_compute; tauto))
                   eq_refl)|].
  split; [reflexivity|].
  exact (proj1 (proj2 (proj2 Timeout_write_discipline)) (main_entry g_reset)
           eq_refl).
Defined.

(** ** The flag is cleared only after being observed *)

Lemma step_frame_ok : forall e c,
  frame_ok (snd c) -> frame_ok (snd (fst (step e c))).
Proof.
  intros e [g f] H. destruct e.
  - rewrite step_loop_cfg. revert H. destruct f as [l fl tp p].
    unfold frame_ok. cbn [snd pc flg].
    destruct p; cbn -[strcmp Timeout Z.eqb];
      repeat match goal with
             | |- context [if ?b then _ else _] => destruct b eqn:?
             end; cbn -[strcmp Timeout Z.eqb]; auto.
  - rewrite step_overflow_cfg. exact H.
Qed.

Lemma run_frame_ok : forall s c,
  frame_ok (snd c) -> frame_ok (snd (run_cfg s c)).
Proof.
  induction s as [|e s IH]; intros c H; [exact H|].
  rewrite run_cons. apply IH, step_frame_ok, H.
Qed.

Lemma step_clears_flag : forall e c,
  Timeout (Flags (fst c)) = true ->
  Timeout (Flags (fst (fst (step e c)))) = false ->
  e = E_loop /\ pc (snd c) = L_clear.
Proof.
  intros e [g f] Ht Hf. destruct e.
  - rewrite step_loop_cfg in Hf. cbn [fst] in Ht. revert Hf.
    loop_cases f; intros Hf; cbn -[Timeout] in Hf;
      try congruence; auto.
  - rewrite step_overflow_cfg, overflow_eq in Hf. cbn [fst Flags] in Hf.
    rewrite Timeout_set_true in Hf. discriminate.
Qed.

(** C1 (as amended). In every interleaving after [main]'s initialization,
    a handler run leaves the Timeout Flag set, and the flag goes from set
    to clear only by the loop's [Flags.Bit.Timeout = 0], executed by an
    iteration whose read had found the flag set. *)
Theorem Timeout_flag_not_lost :
  (forall c, Timeout (Flags (fst (fst (step E_overflow c)))) = true)
  /\
  (forall g s e,
   let c := run_cfg s (main_entry g) in
   Timeout (Flags (fst c)) = true ->
   Timeout (Flags (fst (fst (step e c)))) = false ->
   e = E_loop /\ pc (snd c) = L_clear /\ Timeout (flg (snd c)) = true).
Proof.
  split.
  - intros [g f]. rewrite step_overflow_cfg, overflow_eq. cbn [fst].
    apply Timeout_set_true.
  - intros g s e c Ht Hf.
    destruct (step_clears_flag e c Ht Hf) as [He Hpc].
    split; [exact He|]. split; [exact Hpc|].
    pose proof (run_frame_ok s (main_entry g) I) as Hok.
    fold c in Hok. unfold frame_ok in Hok. rewrite Hpc in Hok. exact Hok.
Qed.

Lemma Timeout_flag_not_lost_witness :
  let c := run_cfg [E_overflow; E_loop; E_loop; E_loop; E_loop]
                   (main_entry g_reset) in
  Timeout (Flags (fst c)) = true /\
  Timeout (Flags (fst (fst (step E_loop c)))) = false /\
  (E_loop = E_loop /\ pc (snd c) = L_clear /\ Timeout (flg (snd c)) = true).
Proof.
  cbv zeta. split; [vm_compute; reflexivity|]. split; [vm_compute; reflexivity|].
  exact (proj2 Timeout_flag_not_lost g_reset
           [E_overflow; E_loop; E_loop; E_loop; E_loop] E_loop
           ltac:(vm_compute; reflexivity) ltac:(vm_compute; reflexivity)).
Defined.

(** C1 counterexample: a first overflow sets the flag; the loop reads it;
    a second overflow preempts the loop between that read and its clear.
    The iteration clears the flag and, without further overflows, the loop
    settles into an iteration that maps the state to itself and observes the
    flag clear: two overflow events, one observation in the whole run. *)
Lemma two_overflows_one_observation_counterexample :
  let s := [E_overflow; E_loop; E_loop; E_overflow] ++ repeat E_loop 7 in
  let c2 := run_cfg s (main_entry g_reset) in
  let c3 := fst (iteration c2) in
  overflows s = 2%nat /\ observations s (main_entry g_reset) = 1%nat /\
  pc (snd (run_cfg [E_overflow; E_loop; E_loop] (main_entry g_reset))) = L_test /\
  In (Handler, W_Timeout true)
     (snd (step E_overflow (run_cfg [E_overflow; E_loop; E_loop]
                                    (main_entry g_reset)))) /\
  pc (snd c2) = L_top /\ Timeout (Flags (fst c2)) = false /\
  Timeout (flg (snd c3)) = false /\
  fst (iteration c3) = c3 /\ Timeout (flg (snd (fst (iteration c3)))) = false.
Proof. vm_compute. repeat split; auto. Qed.

(** ** The buffer rewrite *)

Lemma step_buffer : forall e c,
  buffer (fst (fst (step e c))) =
  if is_cpy_step e c then cpy_def (buffer (fst c)) else buffer (fst c).
Proof.
  intros e [g f]. destruct e.
  - rewrite step_loop_cfg. loop_cases f; reflexivity.
  - rewrite step_overflow_cfg, overflow_eq. reflexivity.
Qed.

Lemma cpy_def_idem : forall b, cpy_def (cpy_def b) = cpy_def b.
Proof.
  intros b. unfold cpy_def. cbn.
  destruct b as [|x0 [|x1 [|x2 [|x3 [|x4 [|x5 t]]]]]]; reflexivity.
Qed.

Lemma buffer_changes_fixed : forall s c,
  cpy_def (buffer (fst c)) = buffer (fst c) -> buffer_changes s c = O.
Proof.
  induction s as [|e s IH]; intros c H; [reflexivity|].
  cbn [buffer_changes].
  assert (Hb : buffer (fst (fst (step e c))) = buffer (fst c))
    by (rewrite step_buffer; destruct (is_cpy_step e c); auto).
  rewrite Hb. destruct (list_eq_dec Z.eq_dec _ _) as [_|n]; [|congruence].
  cbn. apply IH. now rewrite Hb.
Qed.

Lemma buffer_changes_le1 : forall s c, (buffer_changes s c <= 1)%nat.
Proof.
  induction s as [|e s IH]; intros c; cbn [buffer_changes]; [lia|].
  destruct (list_eq_dec Z.eq_dec _ _) as [_|Hne]; [cbn; apply IH|].
  rewrite buffer_changes_fixed; [lia|].
  pose proof (step_buffer e c) as Hb.
  destruct (is_cpy_step e c); [|congruence].
  rewrite Hb. apply cpy_def_idem.
Qed.

Lemma strcmp_abc_after_def : forall b,
  (length b >= 4)%nat ->
  strcmp lit_abc (firstn 3 b ++ [100; 101; 102] ++ skipn 6 b) <> 0.
Proof.
  intros b Hlen.
  destruct b as [|x0 [|x1 [|x2 t]]]; cbn in Hlen; try lia.
  unfold strcmp, strcmp_from, byte_at. cbn -[Z.eqb Z.sub].
  change (97 =? 0) with false; change (98 =? 0) with false;
  change (99 =? 0) with false; change (0 =? 100) with false;
  cbn -[Z.eqb Z.sub].
  destruct (Z.eqb_spec 97 x0); cbn -[Z.eqb Z.sub]; [|lia].
  destruct (Z.eqb_spec 98 x1); cbn -[Z.eqb Z.sub]; [|lia].
  destruct (Z.eqb_spec 99 x2); cbn -[Z.eqb Z.sub]; lia.
Qed.

(** C10. The buffer is rewritten at most once: an iteration (of a 16-byte
    buffer) whose [strcmp("abc", buffer)] is 0 overwrites bytes 3, 4, 5
    with 'd', 'e', 'f' and nothing else, any other iteration leaves the
    buffer unchanged; after the rewrite the buffer no longer compares
    equal to "abc"; and in every run, whatever the interleaving with the
    handler, at most one step changes the buffer. *)
Theorem buffer_rewrite_once :
  (forall g f, pc f = L_top -> loop f <> 0 -> length (buffer g) = 16%nat ->
   buffer (fst (fst (iteration (g, f)))) =
   if strcmp lit_abc (buffer g) =? 0
   then firstn 3 (buffer g) ++ [100; 101; 102] ++ skipn 6 (buffer g)
   else buffer g)
  /\
  (forall b, length b = 16%nat ->
   strcmp lit_abc (firstn 3 b ++ [100; 101; 102] ++ skipn 6 b) <> 0)
  /\
  (forall s c, (buffer_changes s c <= 1)%nat).
Proof.
  split; [|split].
  - run_iteration; intros Hlen; try reflexivity;
      destruct (buffer g) as [|x0 [|x1 [|x2 [|x3 [|x4 [|x5 t]]]]]];
      cbn in Hlen; try lia; reflexivity.
  - intros b Hlen. apply strcmp_abc_after_def. lia.
  - exact buffer_changes_le1.
Qed.

Lemma buffer_rewrite_once_witness :
  pc f_entry = L_top /\ loop f_entry <> 0 /\
  length (buffer (mkGlobals false 0 false false buf_abc Running Running)) = 16%nat /\
  buffer (fst (fst (iteration (mkGlobals false 0 false false buf_abc
                                         Running Running, f_entry)))) =
  firstn 3 buf_abc ++ [100; 101; 102] ++ skipn 6 buf_abc /\
  strcmp lit_abc (firstn 3 buf_abc ++ [100; 101; 102] ++ skipn 6 buf_abc) <> 0.
Proof.
  split; [reflexivity|]. split; [discriminate|]. split; [reflexivity|].
  split.
  - exact (proj1 buffer_rewrite_once
             (mkGlobals false 0 false false buf_abc Running Running) f_entry
             eq_refl ltac:(discriminate) eq_refl).
  - exact (proj1 (proj2 buffer_rewrite_once) buf_abc eq_refl).
Defined.

(** ** Further properties of the program *)

Lemma run_invariant : forall (P : config -> Prop),
  (forall e c, P c -> P (fst (step e c))) ->
  forall s c, P c -> P (run_cfg s c).
Proof.
  intros P HP. induction s as [|e s IH]; intros c H; [exact H|].
  rewrite run_cons. apply IH, HP, H.
Qed.

Lemma step_flag_inv : forall e c, flag_inv c -> flag_inv (fst (step e c)).
Proof.
  intros e [g f] H. destruct e.
  - rewrite step_loop_cfg. destruct f as [l fl tp p]. unfold flag_inv in *.
    cbn [snd pc flg fst] in H.
    destruct p; cbn -[strcmp Timeout Z.eqb];
      repeat match goal with
             | |- context [if ?b then _ else _] => destruct b eqn:?
             end; cbn -[strcmp Timeout Z.eqb]; auto.
  - rewrite step_overflow_cfg, overflow_eq. unfold flag_inv.
    cbn [fst snd Flags]. rewrite Timeout_set_true. destruct (pc f); auto.
Qed.

Lemma step_mirror_inv : forall e c, mirror_inv c -> mirror_inv (fst (step e c)).
Proof.
  intros e [g f] H. destruct e.
  - rewrite step_loop_cfg. destruct f as [l fl tp p]. unfold mirror_inv in *.
    cbn [snd pc flg fst tmp] in H.
    destruct p; cbn -[strcmp Timeout Z.eqb];
      repeat match goal with
             | |- context [if ?b then _ else _] => destruct b eqn:?
             end; cbn -[strcmp Timeout Z.eqb]; auto.
  - rewrite step_overflow_cfg, overflow_eq. unfold mirror_inv.
    cbn [fst snd Flags]. rewrite Timeout_set_true. discriminate.
Qed.

Lemma step_pending : forall e c,
  flag_inv c ->
  ((if observes e c then 1 else 0) + pending (fst (step e c))
   <= overflows [e] + pending c)%nat.
Proof.
  intros e [g f] H. destruct e.
  - rewrite step_loop_cfg. destruct f as [l fl tp p]. unfold flag_inv, pending in *.
    cbn [snd pc flg fst] in H. unfold observes. cbn [snd pc flg overflows].
    destruct p; cbn -[strcmp Timeout set_Timeout]; rewrite ?Timeout_set_false;
      repeat match goal with
             | |- context [if ?b then _ else _] => destruct b eqn:?
             end; cbn -[strcmp Timeout set_Timeout]; try lia.
    all: exfalso; match goal with
                  | Hf : Timeout _ = true |- _ => specialize (H Hf); congruence
                  end.
  - rewrite step_overflow_cfg, overflow_eq. unfold pending, observes.
    cbn [fst snd Flags overflows]. rewrite Timeout_set_true.
    destruct (pc f); destruct (Timeout (Flags g)); lia.
Qed.

Lemma run_pending : forall s c,
  flag_inv c ->
  (observations s c + pending (run_cfg s c) <= overflows s + pending c)%nat.
Proof.
  induction s as [|e s IH]; intros c H; [cbn; lia|].
  cbn [observations]. rewrite run_cons.
  pose proof (step_pending e c H) as H1.
  pose proof (IH _ (step_flag_inv e c H)) as H2.
  replace (overflows (e :: s)) with (overflows [e] + overflows s)%nat
    by (destruct e; reflexivity).
  lia.
Qed.

(** X1. LED-B mirrors LED-A whenever no update is pending: in every run
    from [main] that starts with the two LEDs equal, whenever the loop is
    at its [while] test and the Timeout Flag is clear, LATB7 equals
    LATB0. *)
Theorem LED_mirror_when_clear : forall g s,
  LATB7 g = LATB0 g ->
  let c := run_cfg s (main_entry g) in
  pc (snd c) = L_top -> Timeout (Flags (fst c)) = false ->
  LATB7 (fst c) = LATB0 (fst c).
Proof.
  intros g s H0 c Hpc Hf.
  assert (Hm : mirror_inv c).
  { apply run_invariant; [exact step_mirror_inv|].
    unfold mirror_inv. cbn. intros _. exact H0. }
  unfold mirror_inv in Hm. rewrite Hpc in Hm. exact (Hm Hf).
Qed.

Lemma LED_mirror_when_clear_witness :
  let c := run_cfg (E_overflow :: repeat E_loop 9) (main_entry g_reset) in
  LATB7 g_reset = LATB0 g_reset /\ pc (snd c) = L_top /\
  Timeout (Flags (fst c)) = false /\ LATB0 (fst c) = true /\
  LATB7 (fst c) = LATB0 (fst c).
Proof.
  cbv zeta. split; [reflexivity|]. split; [vm_compute; reflexivity|].
  split; [vm_compute; reflexivity|]. split; [vm_compute; reflexivity|].
  exact (LED_mirror_when_clear g_reset (E_overflow :: repeat E_loop 9)
           eq_refl ltac:(vm_compute; reflexivity) ltac:(vm_compute; reflexivity)).
Defined.

(** X2. No overflow is observed twice: in every interleaving after
    [main]'s initialization, the number of loop iterations that find the
    Timeout Flag set is at most the number of timer overflows. *)
Theorem observations_le_overflows : forall g s,
  (observations s (main_entry g) <= overflows s)%nat.
Proof.
  intros g s. pose proof (run_pending s (main_entry g) I) as H.
  unfold pending at 2 in H. cbn in H. lia.
Qed.

Lemma step_TMR0IF : forall e c,
  TMR0IF (fst c) = false -> TMR0IF (fst (fst (step e c))) = false.
Proof.
  intros e [g f] H. destruct e.
  - rewrite step_loop_cfg. cbn [fst] in H. loop_cases f; exact H.
  - rewrite step_overflow_cfg, overflow_eq. reflexivity.
Qed.

(** X3. The handler acknowledges every overflow: in every interleaving
    after [main]'s initialization, TMR0IF is clear between steps, so the
    timer interrupt never stays pending after the handler returns. *)
Theorem TMR0IF_never_pending : forall g s,
  TMR0IF (fst (run_cfg s (main_entry g))) = false.
Proof.
  intros g s. apply (run_invariant (fun c => TMR0IF (fst c) = false)).
  - exact step_TMR0IF.
  - reflexivity.
Qed.

Lemma step_Flags01 : forall e c,
  Flags (fst c) = 0 \/ Flags (fst c) = 1 ->
  Flags (fst (fst (step e c))) = 0 \/ Flags (fst (fst (step e c))) = 1.
Proof.
  intros e [g f] H. cbn [fst] in H. destruct e.
  - rewrite step_loop_cfg. loop_cases f;
      destruct H as [H|H]; rewrite ?H; cbn; auto.
  - rewrite step_overflow_cfg, overflow_eq. cbn [fst Flags].
    destruct H as [H|H]; rewrite H; cbn; auto.
Qed.

(** X4. The seven [None] bits of [Flags] stay 0: in every interleaving
    after [main]'s [Flags.Byte = 0], the byte is 0 or 1, only the
    [Timeout] bit ever changing. *)
Theorem Flags_byte_0_or_1 : forall g s,
  let c := run_cfg s (main_entry g) in
  Flags (fst c) = 0 \/ Flags (fst c) = 1.
Proof.
  intros g s. apply (run_invariant (fun c => Flags (fst c) = 0 \/ Flags (fst c) = 1)).
  - exact step_Flags01.
  - left. reflexivity.
Qed.

Lemma loop_step_quiet : forall c,
  quiet c ->
  quiet (fst (loop_step c)) /\
  LATB0 (fst (fst (loop_step c))) = LATB0 (fst c) /\
  LATB7 (fst (fst (loop_step c))) = LATB7 (fst c) /\
  Forall quiet_write (snd (loop_step c)).
Proof.
  intros [g f] [HF [Hfl Hp]]. destruct f as [l fl tp p]. unfold quiet.
  cbn [fst snd pc flg] in *.
  destruct p; try contradiction; cbn -[strcmp Timeout];
    rewrite ?Hfl, ?HF;
    repeat match goal with
           | |- context [if ?b then _ else _] => destruct b eqn:?
           end; cbn -[strcmp Timeout];
    repeat split; rewrite ?HF; auto; repeat constructor.
Qed.

Lemma run_quiet : forall s c,
  overflows s = O -> quiet c ->
  quiet (run_cfg s c) /\
  LATB0 (fst (run_cfg s c)) = LATB0 (fst c) /\
  LATB7 (fst (run_cfg s c)) = LATB7 (fst c) /\
  (forall a w, In (a, w) (snd (run s c)) -> a = Loop /\ quiet_write w).
Proof.
  induction s as [|e s IH]; intros c Hs Hq.
  - unfold run_cfg. cbn [run fst snd]. split; [exact Hq|]. split; [reflexivity|].
    split; [reflexivity|]. intros a w [].
  - destruct e; [|discriminate]. cbn in Hs.
    destruct (loop_step_quiet c Hq) as [Hq1 [H0 [H7 Hw]]].
    rewrite run_cons, step_loop_cfg.
    destruct (IH _ Hs Hq1) as [Hq2 [H0' [H7' Hw']]].
    split; [exact Hq2|]. split; [congruence|]. split; [congruence|].
    intros a w Hin. cbn [run] in Hin. destruct c as [g f]. unfold step in Hin.
    destruct (loop_step (g, f)) as [c1 ws] eqn:E. cbn [fst snd] in *.
    destruct (run s c1) as [c2 t2] eqn:E2. cbn [snd] in *.
    apply in_app_or in Hin. destruct Hin as [Hin|Hin].
    + apply in_map_iff in Hin. destruct Hin as [w' [Hp Hin]].
      inversion Hp; subst. split; [reflexivity|].
      rewrite Forall_forall in Hw. exact (Hw _ Hin).
    + exact (Hw' a w Hin).
Qed.

(** X5. Without a timer overflow the loop never touches the LEDs or the
    flag: in a run from [main] with no overflow event, [Flags.Byte] stays
    0, LATB0 and LATB7 keep their values, and every write made is the
    loop's, to [state], [State] or [buffer]. *)
Theorem no_overflow_no_LED_write : forall g s,
  overflows s = O ->
  let c := run_cfg s (main_entry g) in
  Flags (fst c) = 0 /\ LATB0 (fst c) = LATB0 g /\ LATB7 (fst c) = LATB7 g /\
  (forall a w, In (a, w) (snd (run s (main_entry g))) -> a = Loop /\ quiet_write w).
Proof.
  intros g s Hs c.
  assert (Hq : quiet (main_entry g)) by (repeat split).
  destruct (run_quiet s _ Hs Hq) as [[HF _] [H0 [H7 Hw]]].
  split; [exact HF|]. split; [exact H0|]. split; [exact H7|]. exact Hw.
Qed.

Lemma no_overflow_no_LED_write_witness :
  let s := repeat E_loop 20 in
  let c := run_cfg s (main_entry g_irq) in
  overflows s = O /\
  Flags (fst c) = 0 /\ LATB0 (fst c) = LATB0 g_irq /\ LATB7 (fst c) = LATB7 g_irq /\
  (forall a w, In (a, w) (snd (run s (main_entry g_irq))) -> a = Loop /\ quiet_write w).
Proof.
  cbv zeta. split; [reflexivity|].
  exact (no_overflow_no_LED_write g_irq (repeat E_loop 20) eq_refl).
Defined.

Lemma step_zero_buf : forall e c,
  buffer (fst c) = zero_buf /\ pc (snd c) <> L_cpy ->
  buffer (fst (fst (step e c))) = zero_buf /\ pc (snd (fst (step e c))) <> L_cpy.
Proof.
  intros e [g f] [Hb Hp]. destruct e.
  - rewrite step_loop_cfg. destruct f as [l fl tp p]. cbn [fst snd pc] in *.
    destruct p; try congruence; cbn -[strcmp Timeout];
      rewrite ?Hb;
      repeat match goal with
             | |- context [if ?b then _ else _] => destruct b eqn:?
             end; cbn -[strcmp Timeout];
      try (vm_compute in *; discriminate);
      split; try discriminate; try assumption; reflexivity.
  - rewrite step_overflow_cfg, overflow_eq. split; assumption.
Qed.

(** X6. With the buffer zero-filled, the [strncpy] branch is dead: in a
    run from [main] whose [buffer] starts as 16 zero bytes,
    [strcmp("abc", buffer)] is never 0, the loop never reaches the
    [strncpy], and the buffer stays zero-filled, whatever the
    interleaving. *)
Theorem zero_buffer_never_rewritten : forall g s,
  buffer g = zero_buf ->
  let c := run_cfg s (main_entry g) in
  buffer (fst c) = zero_buf /\ pc (snd c) <> L_cpy.
Proof.
  intros g s Hb c.
  apply (run_invariant (fun c => buffer (fst c) = zero_buf /\ pc (snd c) <> L_cpy)).
  - exact step_zero_buf.
  - split; [exact Hb|discriminate].
Qed.

Lemma zero_buffer_never_rewritten_witness :
  let s := [E_overflow] ++ repeat E_loop 9 ++ [E_overflow] ++ repeat E_loop 7 in
  let c := run_cfg s (main_entry g_reset) in
  buffer g_reset = zero_buf /\ buffer (fst c) = zero_buf /\ pc (snd c) <> L_cpy.
Proof.
  cbv zeta. split; [reflexivity|].
  exact (zero_buffer_never_rewritten g_reset
           ([E_overflow] ++ repeat E_loop 9 ++ [E_overflow] ++ repeat E_loop 7)
           eq_refl).
Defined.

(** X7. When [doloop] rewrites: [strcmp("abc", buffer)] is 0 exactly when
    the first four bytes of [buffer] are 'a', 'b', 'c' and NUL; what
    follows the NUL is never read. *)
Theorem strcmp_abc_zero_iff : forall b,
  strcmp lit_abc b = 0 <->
  byte_at b 0 = 97 /\ byte_at b 1 = 98 /\ byte_at b 2 = 99 /\ byte_at b 3 = 0.
Proof.
  intros b. unfold strcmp. cbn -[byte_at Z.eqb Z.sub].
  change (byte_at lit_abc 0) with 97; change (byte_at lit_abc 1) with 98;
  change (byte_at lit_abc 2) with 99; change (byte_at lit_abc 3) with 0.
  change (97 =? 0) with false; change (98 =? 0) with false;
  change (99 =? 0) with false; change (0 =? 0) with true.
  destruct (Z.eqb_spec 97 (byte_at b 0)); cbn -[byte_at Z.eqb Z.sub];
    [|split; [lia|intros; lia]].
  destruct (Z.eqb_spec 98 (byte_at b 1)); cbn -[byte_at Z.eqb Z.sub];
    [|split; [lia|intros; lia]].
  destruct (Z.eqb_spec 99 (byte_at b 2)); cbn -[byte_at Z.eqb Z.sub];
    [|split; [lia|intros; lia]].
  destruct (Z.eqb_spec 0 (byte_at b 3)); cbn -[byte_at Z.eqb Z.sub];
    split; intros; lia.
Qed.

(** X8. The handler acknowledges its own trigger: run a second time with
    no new overflow, [InterruptHandlerHigh] writes nothing and changes
    nothing, so LATB0 is toggled once per overflow. *)
Theorem InterruptHandlerHigh_rerun_noop : forall g,
  let g1 := fst (InterruptHandlerHigh g) in
  InterruptHandlerHigh g1 = (g1, []).
Proof.
  intros g g1. unfold g1, InterruptHandlerHigh.
  destruct (TMR0IF g) eqn:E; cbn; [reflexivity|]. now rewrite E.
Qed.


